(** * extract-docx.py: a shallow embedding and its properties

    The script reads a Word document through python-docx and dumps the
    paragraph texts and the table rows to a text file; when python-docx is
    not installed it prints a hint and asks the shell to open the document.

    The embedding keeps the shape of the script: a small state-and-exception
    monad over a world made of a file system, a table of open file objects
    and a chronological trace of the observable calls.  The collaborators
    (python-docx, [open], [print], [subprocess.run]) are modelled at the
    level of the Python calls the script makes, with the ways they fail:
    a console that cannot encode a message, an output that cannot be
    opened, a buffered write or a close whose flush fails. *)

From Stdlib Require Import Ascii String ZArith.
From stdpp Require Import gmap strings list fin_maps.

(** ** Text *)

(** Python [str] values are modelled as byte strings holding their UTF-8
    encoding; the line feed and the tab are single bytes that occur in no
    multi-byte sequence, so counting them on the encoding is counting them
    on the text.  A file opened with [encoding='utf-8'] then holds what
    has been flushed of the string that was written (the platform's
    newline translation is a fixed function of that string and is left
    out). *)

Definition LF : ascii := "010"%char.
Definition TAB : ascii := "009"%char.


Definition nl : string := String LF "".
Definition tab : string := String TAB "".

(** [sep.join(parts)] *)
Definition join (sep : string) (parts : list string) : string :=
  String.concat sep parts.

(** Occurrences of a character in a string. *)
Fixpoint count_char (c : ascii) (s : string) : nat :=
  match s with
  | EmptyString => 0
  | String a s' =>
      (if Ascii.eqb a c then 1 else 0) + count_char c s'
  end.

(** The first [n] bytes of a string. *)
Fixpoint string_take (n : nat) (s : string) : string :=
  match n, s with
  | S n', String a s' => String a (string_take n' s')
  | _, _ => EmptyString
  end.

(** [a] is the beginning of [b]. *)
Definition is_prefix (a b : string) : Prop := ∃ t, b = a +:+ t.

(** Every byte is below 128. *)
Fixpoint is_ascii (s : string) : bool :=
  match s with
  | EmptyString => true
  | String (Ascii _ _ _ _ _ _ _ b7) s' => negb b7 && is_ascii s'
  end.




(** The lines of a text file, as [readlines] cuts them (terminators
    dropped): a line ends at each line feed, and a last fragment without
    a line feed counts when it is not empty. *)
Fixpoint lines_from (cur : string) (s : string) : list string :=
  match s with
  | EmptyString => match cur with EmptyString => [] | _ => [cur] end
  | String a s' =>
      if Ascii.eqb a LF then cur :: lines_from "" s'
      else lines_from (cur +:+ String a "") s'
  end.

Definition file_lines (s : string) : list string := lines_from "" s.

(** ** The document, as python-docx presents it *)

Record Paragraph := { para_text : string }.
Record Cell := { cell_text : string }.
Record Row := { cells : list Cell }.
Record Table := { rows : list Row }.
Record Document := { paragraphs : list Paragraph; tables : list Table }.

(** ** Exceptions *)

Inductive os_error := ENOENT | EACCES | ENOSPC | EIO.

Inductive exn :=
| ImportError (name : string)
| ModuleNotFoundError (name : string)
| PackageNotFoundError (path : string)
| BadZipFile
| OSError (e : os_error)
| UnicodeEncodeError
| CalledProcessError
| ValueError.

(** [isinstance(e, ImportError)]: [ModuleNotFoundError] is its subclass. *)
Definition isinstance_ImportError (e : exn) : bool :=
  match e with
  | ImportError _ | ModuleNotFoundError _ => true
  | _ => false
  end.

(** ** The world *)

Inductive file :=
| Docx (d : Document)
| Text (s : string)
| Corrupt.

(** An open text file in write mode: its path, the chunks taken by the
    write calls that returned, and the chunk of a write call that raised.
    What was taken sits in the buffers of the file object; how much of it
    has reached the file is known when the file is closed. *)
Record handle := Handle {
  h_path : string;
  h_pending : list string;
  h_failed : option string
}.

Inductive event :=
| EPrint (s : string)
| EOpen (fd : nat) (path : string)
| EWrite (fd : nat) (s : string)
| EClose (fd : nat)
| ERun (args : list string) (shell : bool)
| EWait.

Record world := World {
  fs : gmap string file;
  fds : gmap nat handle;
  trace : list event
}.

Inductive host := Posix | Windows.

(** What the run cannot decide by itself: whether python-docx is
    installed; which texts with non-ASCII characters the encoding of the
    console can encode; whether the output file can be opened; which write
    call (by its index on the file object) raises because the flush it
    triggers fails; whether the flush at close fails; how many bytes of the
    text handed to the file object have reached the file when a flush has
    failed; the host platform; the exit status of the launched shell. *)
Record env := Env {
  docx_installed : bool;
  stdout_encodes : string -> bool;
  open_fault : option os_error;
  write_fault : nat -> option os_error;
  close_fault : option os_error;
  persisted : nat;
  platform : host;
  shell_status : Z
}.

(** ** The monad *)

Inductive result (A : Type) :=
| Ok (a : A)
| Raise (e : exn).
Arguments Ok {A} a.
Arguments Raise {A} e.

Definition M (A : Type) : Type := world -> result A * world.

Definition ret {A} (a : A) : M A := fun w => (Ok a, w).

Definition raise {A} (e : exn) : M A := fun w => (Raise e, w).

Definition bind {A B} (m : M A) (k : A -> M B) : M B :=
  fun w =>
    match m w with
    | (Ok a, w') => k a w'
    | (Raise e, w') => (Raise e, w')
    end.

Declare Scope py_scope.
Delimit Scope py_scope with py.
Notation "x <- m ;; k" := (bind m (fun x => k))
  (at level 100, m at next level, right associativity) : py_scope.
Notation "m ;; k" := (bind m (fun _ => k))
  (at level 100, right associativity) : py_scope.
Local Open Scope py_scope.

(** [try: body  except C: handler], with [catches] deciding [isinstance(e, C)]. *)
Definition try_except {A} (body : M A) (catches : exn -> bool) (handler : M A) : M A :=
  fun w =>
    match body w with
    | (Ok a, w') => (Ok a, w')
    | (Raise e, w') => if catches e then handler w' else (Raise e, w')
    end.

(** [for x in xs: body(x)] *)
Fixpoint for_each {A} (xs : list A) (body : A -> M unit) : M unit :=
  match xs with
  | [] => ret tt
  | x :: xs' => body x ;; for_each xs' body
  end.

Definition log (e : event) (w : world) : world :=
  {| fs := fs w; fds := fds w; trace := trace w ++ [e] |}.

(** ** The calls the script makes *)

Section Calls.
Variable E : env.

(** [from docx import Document] *)
Definition import_docx : M unit :=
  if docx_installed E then ret tt else raise (ModuleNotFoundError "docx").

(** [import subprocess]: standard library, always there. *)
Definition import_subprocess : M unit := ret tt.

(** [Document(path)]: python-docx raises [PackageNotFoundError] when the
    path is no file or not a zip archive. *)
Definition open_document (path : string) : M Document :=
  fun w =>
    match fs w !! path with
    | Some (Docx d) => (Ok d, w)
    | Some Corrupt => (Raise BadZipFile, w)
    | Some (Text _) | None => (Raise (PackageNotFoundError path), w)
    end.

(** [open(path, 'w', encoding='utf-8')]: creates or truncates. *)
Definition open_w (path : string) : M nat :=
  fun w =>
    match open_fault E with
    | Some e => (Raise (OSError e), w)
    | None =>
        let fd := fresh (dom (fds w)) in
        (Ok fd,
         {| fs := <[path := Text ""]> (fs w);
            fds := <[fd := Handle path [] None]> (fds w);
            trace := trace w ++ [EOpen fd path] |})
    end.

(** [f.write(s)]: the text goes to the buffers of the file object; the
    call raises when the flush it triggers fails, and the chunk of that
    call is then in an unknown state. *)
Definition write (fd : nat) (s : string) : M unit :=
  fun w =>
    match fds w !! fd with
    | None => (Raise ValueError, w)
    | Some h =>
        match write_fault E (length (h_pending h)) with
        | Some e =>
            (Raise (OSError e),
             {| fs := fs w;
                fds := <[fd := Handle (h_path h) (h_pending h) (Some s)]> (fds w);
                trace := trace w |})
        | None =>
            (Ok tt,
             {| fs := fs w;
                fds := <[fd := Handle (h_path h) (h_pending h ++ [s])
                                      (h_failed h)]> (fds w);
                trace := trace w ++ [EWrite fd s] |})
        end
    end.

(** The text handed to a file object, the chunk of a failed call included. *)
Definition handed (h : handle) : string :=
  join "" (h_pending h ++ option_list (h_failed h)).

(** The error [close] raises: its flush can fail when there is text to
    flush; after a failed write the flush meets the same device error and
    the run ends with the error of the write either way. *)
Definition closing_error (h : handle) : option os_error :=
  match h_failed h with
  | Some _ => None
  | None =>
      match handed h with
      | EmptyString => None
      | String _ _ => close_fault E
      end
  end.

(** What has reached the file when it is closed: the whole text when no
    flush has failed, else its first [persisted E] bytes. *)
Definition flushed (h : handle) : string :=
  match h_failed h, closing_error h with
  | None, None => handed h
  | _, _ => string_take (persisted E) (handed h)
  end.

(** [f.close()]: flushes the buffers after the file's content and drops
    the file object, also when the flush fails. *)
Definition close (fd : nat) : M unit :=
  fun w =>
    match fds w !! fd with
    | None => (Ok tt, w)
    | Some h =>
        let old := match fs w !! h_path h with
                   | Some (Text s) => s
                   | _ => ""
                   end in
        (match closing_error h with
         | Some e => Raise (OSError e)
         | None => Ok tt
         end,
         {| fs := <[h_path h := Text (old +:+ flushed h)]> (fs w);
            fds := delete fd (fds w);
            trace := trace w ++ [EClose fd] |})
    end.

(** [with open(path, 'w', encoding='utf-8') as f: body(f)]: the file is
    closed when the block is left, by its end or by an exception; an
    exception raised by the close is the one that leaves the block. *)
Definition with_open (path : string) (body : nat -> M unit) : M unit :=
  fun w =>
    match open_w path w with
    | (Raise e, w1) => (Raise e, w1)
    | (Ok f, w1) =>
        let '(r, w2) := body f w1 in
        match close f w2 with
        | (Ok _, w3) => (r, w3)
        | (Raise e, w3) => (Raise e, w3)
        end
    end.

(** [print(s)]: ASCII text goes to every console; other text raises
    [UnicodeEncodeError], before anything is printed, when the encoding of
    the console cannot encode it. *)
Definition printable (s : string) : bool :=
  is_ascii s || stdout_encodes E s.

Definition print (s : string) : M unit :=
  fun w =>
    if printable s then (Ok tt, log (EPrint s) w)
    else (Raise UnicodeEncodeError, w).

(** [subprocess.run(args, shell=shell, check=check)]: starts the process,
    waits until it has exited, and returns its exit status; a non-zero
    status is raised only with [check=True]. *)
Definition subprocess_run (args : list string) (shell check : bool) : M Z :=
  fun w =>
    let w' := log EWait (log (ERun args shell) w) in
    if check && negb (shell_status E =? 0)%Z
    then (Raise CalledProcessError, w')
    else (Ok (shell_status E), w').

(** ** The script *)

Definition input_path : string := "API_docs/Spec ETF.docx".
Definition output_path : string := "API_docs/Spec_ETF_extracted.txt".

Definition msg_extracted : string :=
  "✓ Extracted ETF spec to Spec_ETF_extracted.txt".
Definition msg_not_installed : string :=
  "❌ python-docx not installed. Install with: pip install python-docx".
Definition msg_opening : string :=
  nl +:+ "Alternatively, opening the Word document manually...".

(** Line 11: [para.text + '\n'] *)
Definition para_line (para : Paragraph) : string :=
  para_text para +:+ nl.

(** Line 16: ['\t'.join([cell.text for cell in row.cells]) + '\n'] *)
Definition row_line (row : Row) : string :=
  join tab (map cell_text (cells row)) +:+ nl.

(** Lines 5-18. *)
Definition extract : M unit :=
  import_docx ;;
  doc <- open_document input_path ;;
  with_open output_path (fun f =>
    for_each (paragraphs doc) (fun para =>
      write f (para_line para)) ;;
    for_each (tables doc) (fun table =>
      for_each (rows table) (fun row =>
        write f (row_line row)))) ;;
  print msg_extracted.

(** Lines 21-24. *)
Definition fallback : M unit :=
  print msg_not_installed ;;
  print msg_opening ;;
  import_subprocess ;;
  _ <- subprocess_run ["start"; input_path] true false ;;
  ret tt.

(** Lines 4-24. *)
Definition main : M unit :=
  try_except extract isinstance_ImportError fallback.

End Calls.


(** ** The extracted text, following the specification *)

(** "An ordered sequence of text lines, built by concatenating each
    paragraph's text (one line per paragraph) followed by each table row's
    cell texts joined by a tab character (one line per row)." *)
Definition row_text (row : Row) : string :=
  join tab (map cell_text (cells row)).

Definition ExtractedText (d : Document) : list string :=
  map para_text (paragraphs d)
  ++ flat_map (fun t => map row_text (rows t)) (tables d).

(** Each line is written with its line break. *)
Definition chunks (d : Document) : list string :=
  map (fun l => l +:+ nl) (ExtractedText d).

(** The serialized text: what the output file is specified to contain. *)
Definition serialize (d : Document) : string := join "" (chunks d).

Definition total_rows (d : Document) : nat :=
  list_sum (map (fun t => length (rows t)) (tables d)).

(** Occurrences of a character over a list of strings. *)
Definition count_in (c : ascii) (ls : list string) : nat :=
  list_sum (map (count_char c) ls).

(** Line breaks that sit inside the paragraph and cell texts. *)
Definition embedded_breaks (d : Document) : nat :=
  count_in LF (map para_text (paragraphs d))
  + list_sum (map (fun t =>
      list_sum (map (fun r => count_in LF (map cell_text (cells r))) (rows t)))
      (tables d)).

(** How far a sequence of writes gets on a file object that has already
    taken [n] writes: the chunks that go through, and the error that stops
    the sequence, if any. *)
Fixpoint written (fault : nat -> option os_error) (n : nat) (ls : list string)
  : list string * option os_error :=
  match ls with
  | [] => ([], None)
  | l :: ls' =>
      match fault n with
      | Some e => ([], Some e)
      | None =>
          let '(done, err) := written fault (S n) ls' in (l :: done, err)
      end
  end.

(** The chunk of the write call that raises, if one does. *)
Fixpoint failing (fault : nat -> option os_error) (n : nat) (ls : list string)
  : option string :=
  match ls with
  | [] => None
  | l :: ls' =>
      match fault n with
      | Some _ => Some l
      | None => failing fault (S n) ls'
      end
  end.

Definition outcome (err : option os_error) : result unit :=
  match err with
  | None => Ok tt
  | Some e => Raise (OSError e)
  end.

(** The events a run adds to the trace. *)
Definition new_events (E : env) (w : world) : list event :=
  drop (length (trace w)) (trace (main E w).2).

Definition file_effect (ev : event) : bool :=
  match ev with
  | EOpen _ _ | EWrite _ _ | EClose _ => true
  | _ => false
  end.

Definition launch_effect (ev : event) : bool :=
  match ev with
  | ERun _ _ | EWait => true
  | _ => false
  end.

Definition writes_of (evs : list event) : list string :=
  flat_map (fun ev => match ev with EWrite _ s => [s] | _ => [] end) evs.

(** The file object of an extraction when the [with] block is left. *)
Definition final_handle (E : env) (d : Document) : handle :=
  Handle output_path (written (write_fault E) 0 (chunks d)).1
         (failing (write_fault E) 0 (chunks d)).

(** The content of the output file after the [with] block. *)
Definition output_content (E : env) (d : Document) : string :=
  flushed E (final_handle E d).

(** The result of the [with] block, and of the whole extraction. *)
Definition dump_result (E : env) (d : Document) : result unit :=
  match (written (write_fault E) 0 (chunks d)).2 with
  | Some e => Raise (OSError e)
  | None => outcome (closing_error E (final_handle E d))
  end.

Definition extract_result (E : env) (d : Document) : result unit :=
  match dump_result E d with
  | Ok _ => if printable E msg_extracted then Ok tt else Raise UnicodeEncodeError
  | Raise e => Raise e
  end.

(** The events of the two paths of the script. *)
Definition fallback_events : list event :=
  [EPrint msg_not_installed; EPrint msg_opening;
   ERun ["start"; input_path] true; EWait].

Definition extract_events (E : env) (d : Document) (fd : nat) : list event :=
  EOpen fd output_path
  :: map (EWrite fd) (written (write_fault E) 0 (chunks d)).1
  ++ EClose fd
  :: match extract_result E d with
     | Ok _ => [EPrint msg_extracted]
     | Raise _ => []
     end.

(** ** The process behind [subprocess.run(args, shell=True)] *)








(** [s.split(c)]: the fields between the occurrences of [c]. *)
Fixpoint split_from (c : ascii) (cur : string) (s : string) : list string :=
  match s with
  | EmptyString => [cur]
  | String a s' =>
      if Ascii.eqb a c then cur :: split_from c "" s'
      else split_from c (cur +:+ String a "") s'
  end.

Definition split (c : ascii) (s : string) : list string := split_from c "" s.


(** ** Sample runs *)

Module Sample.
Definition env_ok : env :=
  {| docx_installed := true; stdout_encodes := fun _ => true;
     open_fault := None; write_fault := fun _ => None; close_fault := None;
     persisted := 0; platform := Windows; shell_status := 0 |}.

Definition env_no_docx : env :=
  {| docx_installed := false; stdout_encodes := fun _ => true;
     open_fault := None; write_fault := fun _ => None; close_fault := None;
     persisted := 0; platform := Windows; shell_status := 1 |}.




(** The disk fills up: the third write raises, seven bytes are in the file. *)
Definition env_disk_full : env :=
  {| docx_installed := true; stdout_encodes := fun _ => true;
     open_fault := None;
     write_fault := fun k => if Nat.eqb k 2 then Some ENOSPC else None;
     close_fault := None;
     persisted := 7; platform := Windows; shell_status := 0 |}.

(** The disk is full from the start: every write returns, the flush at
    close fails and nothing reaches the file. *)
Definition env_close_fault : env :=
  {| docx_installed := true; stdout_encodes := fun _ => true;
     open_fault := None; write_fault := fun _ => None;
     close_fault := Some ENOSPC;
     persisted := 0; platform := Windows; shell_status := 0 |}.

Definition env_read_only : env :=
  {| docx_installed := true; stdout_encodes := fun _ => true;
     open_fault := Some EACCES; write_fault := fun _ => None;
     close_fault := None;
     persisted := 0; platform := Windows; shell_status := 0 |}.

Definition cell (s : string) : Cell := {| cell_text := s |}.
Definition para (s : string) : Paragraph := {| para_text := s |}.

(** Two paragraphs, then a table of two rows and a table of one row. *)
Definition doc : Document :=
  {| paragraphs := [para "Fund"; para "Fees"];
     tables := [ {| rows := [ {| cells := [cell "ISIN"; cell "Name"] |};
                              {| cells := [cell "IE00"; cell "World"] |} ] |};
                 {| rows := [ {| cells := [cell "TER"] |} ] |} ] |}.

(** A paragraph with a line break in it; a cell with a tab in it. *)
Definition doc_break : Document :=
  {| paragraphs := [para ("a" +:+ nl +:+ "b")]; tables := [] |}.

Definition row_tabbed : Row :=
  {| cells := [cell ("a" +:+ tab +:+ "b"); cell "c"] |}.

Definition doc_tabbed : Document :=
  {| paragraphs := [para "p"]; tables := [ {| rows := [row_tabbed] |} ] |}.


Definition world_of (d : Document) : world :=
  {| fs := {[ input_path := Docx d ]}; fds := ∅; trace := [] |}.

(** The document is there and so is an older output file. *)
Definition world_stale (d : Document) : world :=
  {| fs := <[output_path := Text "stale"]> {[ input_path := Docx d ]};
     fds := ∅; trace := [] |}.

Definition world_bare : world := {| fs := ∅; fds := ∅; trace := [] |}.

(** Another file object is open when the run starts. *)
Definition world_busy (d : Document) : world :=
  {| fs := {[ input_path := Docx d ]};
     fds := {[ 0 := Handle "notes.txt" ["draft"] None ]};
     trace := [] |}.
End Sample.

(** The file object an event is about, if any. *)
Definition event_fd (ev : event) : option nat :=
  match ev with
  | EOpen fd _ | EWrite fd _ | EClose fd => Some fd
  | EPrint _ | ERun _ _ | EWait => None
  end.

(** The document with every extracted line turned into a paragraph and no
    table left. *)
Definition flatten (d : Document) : Document :=
  {| paragraphs := map (fun l => {| para_text := l |}) (ExtractedText d);
     tables := [] |}.

(** * Properties *)

(** ** Text *)

Lemma append_cons x (a b : string) : String x a +:+ b = String x (a +:+ b).
Proof. reflexivity. Qed.

Lemma append_nil_l (b : string) : "" +:+ b = b.
Proof. reflexivity. Qed.

Lemma append_assoc (a b c : string) : (a +:+ b) +:+ c = a +:+ (b +:+ c).
Proof.
  induction a as [|x a IH]; [done|]. by rewrite !append_cons, IH.
Qed.

Lemma append_nil_r (a : string) : a +:+ "" = a.
Proof.
  induction a as [|x a IH]; [done|]. by rewrite append_cons, IH.
Qed.

Lemma count_char_app c (a b : string) :
  count_char c (a +:+ b) = count_char c a + count_char c b.
Proof.
  induction a as [|x a IH]; [done|].
  rewrite append_cons. simpl. rewrite IH. lia.
Qed.

Lemma count_in_app c (xs ys : list string) :
  count_in c (xs ++ ys) = count_in c xs + count_in c ys.
Proof. unfold count_in. by rewrite map_app, list_sum_app. Qed.

Lemma join_cons_cons sep (p q : string) (ps : list string) :
  join sep (p :: q :: ps) = p +:+ sep +:+ join sep (q :: ps).
Proof. reflexivity. Qed.

Lemma count_char_join c sep (parts : list string) :
  count_char c (join sep parts)
  = count_in c parts + pred (length parts) * count_char c sep.
Proof.
  induction parts as [|p ps IH]; [done|].
  destruct ps as [|q ps].
  - unfold join, count_in. simpl. lia.
  - rewrite join_cons_cons, !count_char_app, IH.
    unfold count_in. simpl. lia.
Qed.

Lemma join_empty_cons (l : string) (ls : list string) :
  join "" (l :: ls) = l +:+ join "" ls.
Proof.
  destruct ls as [|q ls]; [|by rewrite join_cons_cons].
  unfold join. simpl. by rewrite append_nil_r.
Qed.

Lemma lines_from_cons cur a s :
  lines_from cur (String a s)
  = if Ascii.eqb a LF then cur :: lines_from "" s
    else lines_from (cur +:+ String a "") s.
Proof. reflexivity. Qed.

(** A chunk [t] followed by a line break adds one line, plus one for each
    line break inside [t]. *)
Lemma lines_from_chunk_length cur t rest :
  length (lines_from cur (t +:+ nl +:+ rest))
  = S (count_char LF t + length (lines_from "" rest)).
Proof.
  revert cur. induction t as [|a t IH]; intros cur.
  - reflexivity.
  - rewrite append_cons, lines_from_cons. simpl count_char.
    destruct (Ascii.eqb a LF).
    + simpl. by rewrite IH.
    + by rewrite IH.
Qed.

(** A chunk without a line break inside is read back as one line. *)
Lemma lines_from_chunk cur t rest :
  count_char LF t = 0 →
  lines_from cur (t +:+ nl +:+ rest) = (cur +:+ t) :: lines_from "" rest.
Proof.
  revert cur. induction t as [|a t IH]; intros cur Hc.
  - rewrite append_nil_r. reflexivity.
  - rewrite append_cons, lines_from_cons. simpl in Hc.
    destruct (Ascii.eqb a LF); [lia|].
    rewrite IH by lia. by rewrite append_assoc.
Qed.

Lemma file_lines_join_length (ls : list string) :
  length (file_lines (join "" (map (fun l => l +:+ nl) ls)))
  = length ls + count_in LF ls.
Proof.
  unfold file_lines. induction ls as [|l ls IH]; [done|].
  rewrite map_cons, join_empty_cons, append_assoc, lines_from_chunk_length, IH.
  unfold count_in. simpl. lia.
Qed.

Lemma file_lines_join (ls : list string) :
  count_in LF ls = 0 →
  file_lines (join "" (map (fun l => l +:+ nl) ls)) = ls.
Proof.
  unfold file_lines, count_in. induction ls as [|l ls IH]; intros Hc; [done|].
  simpl in Hc.
  rewrite map_cons, join_empty_cons, append_assoc, lines_from_chunk by lia.
  simpl. f_equal. apply IH. lia.
Qed.

Lemma join_empty_app (xs ys : list string) :
  join "" (xs ++ ys) = join "" xs +:+ join "" ys.
Proof.
  induction xs as [|x xs IH]; [done|].
  rewrite <- app_comm_cons, !join_empty_cons, IH. by rewrite append_assoc.
Qed.

Lemma is_prefix_refl (a : string) : is_prefix a a.
Proof. exists "". by rewrite append_nil_r. Qed.

Lemma is_prefix_trans (a b c : string) :
  is_prefix a b → is_prefix b c → is_prefix a c.
Proof. intros [t ->] [u ->]. exists (t +:+ u). apply append_assoc. Qed.

Lemma string_take_prefix n (s : string) : is_prefix (string_take n s) s.
Proof.
  revert s. induction n as [|n IH]; intros [|a s]; try (by eexists).
  destruct (IH s) as [t Ht]. exists t. simpl. rewrite append_cons. by f_equal.
Qed.

Lemma join_prefix (xs ys : list string) :
  xs `prefix_of` ys → is_prefix (join "" xs) (join "" ys).
Proof. intros [k ->]. exists (join "" k). apply join_empty_app. Qed.

(** ** Loops *)

Section Loops.
Context {A : Type}.

Lemma for_each_ext (xs : list A) (b1 b2 : A → M unit) w :
  (∀ x w', b1 x w' = b2 x w') → for_each xs b1 w = for_each xs b2 w.
Proof.
  intros Hb. revert w. induction xs as [|x xs IH]; intros w; [done|].
  simpl. unfold bind. rewrite Hb. destruct (b2 x w) as [[[]|e] w1]; auto.
Qed.

Lemma for_each_app (xs ys : list A) (body : A → M unit) w :
  for_each (xs ++ ys) body w = (for_each xs body ;; for_each ys body) w.
Proof.
  revert w. induction xs as [|x xs IH]; intros w; [done|].
  simpl. unfold bind.
  destruct (body x w) as [[[]|e] w1]; [|done].
  rewrite IH. reflexivity.
Qed.

Lemma for_each_map {B} (g : B → A) (ys : list B) (body : A → M unit) w :
  for_each (map g ys) body w = for_each ys (fun y => body (g y)) w.
Proof.
  revert w. induction ys as [|y ys IH]; intros w; [done|].
  simpl. unfold bind. destruct (body (g y) w) as [[[]|e] w1]; auto.
Qed.

(** A loop nested in a loop runs the body over the concatenation. *)
Lemma for_each_nested {B} (g : B → list A) (ys : list B) (body : A → M unit) w :
  for_each ys (fun y => for_each (g y) body) w
  = for_each (flat_map g ys) body w.
Proof.
  revert w. induction ys as [|y ys IH]; intros w; [done|].
  simpl. rewrite for_each_app. unfold bind.
  destruct (for_each (g y) body w) as [[[]|e] w1]; auto.
Qed.
End Loops.

Section Run.
Variable E : env.

(** The writes of a loop over chunks, on an open file object: the chunks
    that go through are appended to the pending ones, in order, and the
    first failing write ends the loop with its error and leaves its chunk
    on the file object. *)
Lemma for_each_write f p pend (ls : list string) w :
  fds w !! f = Some (Handle p pend None) →
  for_each ls (write E f) w
  = (outcome (written (write_fault E) (length pend) ls).2,
     {| fs := fs w;
        fds := <[f := Handle p (pend ++ (written (write_fault E) (length pend) ls).1)
                              (failing (write_fault E) (length pend) ls)]> (fds w);
        trace := trace w ++ map (EWrite f) (written (write_fault E) (length pend) ls).1 |}).
Proof.
  revert pend w. induction ls as [|l ls IH]; intros pend w Hf.
  - simpl. unfold ret. rewrite !app_nil_r, insert_id by done. by destruct w.
  - simpl. unfold bind, write at 1. rewrite Hf. simpl.
    destruct (write_fault E (length pend)) as [e|] eqn:Hw.
    + simpl. by rewrite !app_nil_r.
    + erewrite IH by (simpl; apply lookup_insert_eq).
      simpl. rewrite length_app, Nat.add_1_r. simpl.
      destruct (written (write_fault E) (S (length pend)) ls) as [done' err].
      simpl. rewrite insert_insert_eq, <- !app_assoc. reflexivity.
Qed.

(** The chunks, as the script builds them. *)
Lemma chunks_lines (d : Document) :
  chunks d
  = map para_line (paragraphs d)
    ++ flat_map (fun t => map row_line (rows t)) (tables d).
Proof.
  unfold chunks, ExtractedText. rewrite map_app, map_map. f_equal.
  induction (tables d) as [|t ts IH]; [done|].
  simpl. rewrite map_app, IH, map_map. reflexivity.
Qed.

(** The two loops of the script write the chunks of the document. *)
Lemma loops_chunks f (d : Document) w :
  (for_each (paragraphs d) (fun para => write E f (para_line para)) ;;
   for_each (tables d) (fun table =>
     for_each (rows table) (fun row => write E f (row_line row)))) w
  = for_each (chunks d) (write E f) w.
Proof.
  rewrite chunks_lines, for_each_app. unfold bind.
  rewrite for_each_map.
  destruct (for_each (paragraphs d) _ w) as [[[]|e] w1]; [|done].
  rewrite <- for_each_nested. apply for_each_ext.
  intros t w'. by rewrite for_each_map.
Qed.

Lemma bind_ok {A B} (m : M A) (k : A → M B) w a w' :
  m w = (Ok a, w') → bind m k w = k a w'.
Proof. unfold bind. by intros ->. Qed.

Lemma bind_raise {A B} (m : M A) (k : A → M B) w e w' :
  m w = (Raise e, w') → bind m k w = (Raise e, w').
Proof. unfold bind. by intros ->. Qed.

Lemma fresh_fd_closed (w : world) : fds w !! fresh (dom (fds w)) = None.
Proof. apply not_elem_of_dom, is_fresh. Qed.

(** A write call raises exactly when a chunk is left in an unknown state. *)
Lemma failing_none fault n (ls : list string) :
  (written fault n ls).2 = None → failing fault n ls = None.
Proof.
  revert n. induction ls as [|l ls IH]; intros n; [done|].
  simpl. destruct (fault n); [done|].
  specialize (IH (S n)). by destruct (written fault (S n) ls).
Qed.

Lemma failing_some fault n e (ls : list string) :
  (written fault n ls).2 = Some e → is_Some (failing fault n ls).
Proof.
  revert n. induction ls as [|l ls IH]; intros n; [done|].
  simpl. destruct (fault n); [by eexists|].
  specialize (IH (S n)). by destruct (written fault (S n) ls).
Qed.

(** The [with] block of the script: the file is created empty, takes the
    chunks up to the first failing write, and is closed whether the block
    ends or raises; what the close has flushed is in the file. *)
Lemma with_open_chunks (d : Document) w :
  open_fault E = None →
  with_open E output_path (fun f =>
    for_each (paragraphs d) (fun para => write E f (para_line para)) ;;
    for_each (tables d) (fun table =>
      for_each (rows table) (fun row => write E f (row_line row)))) w
  = (dump_result E d,
     {| fs := <[output_path := Text (output_content E d)]> (fs w);
        fds := fds w;
        trace := trace w
                 ++ EOpen (fresh (dom (fds w))) output_path
                 :: map (EWrite (fresh (dom (fds w))))
                      (written (write_fault E) 0 (chunks d)).1
                 ++ [EClose (fresh (dom (fds w)))] |}).
Proof.
  intros Ho. unfold with_open, open_w. rewrite Ho. cbv beta zeta.
  rewrite loops_chunks.
  erewrite for_each_write by (cbn [fds]; apply lookup_insert_eq).
  cbn [length app].
  unfold dump_result, output_content, final_handle.
  pose proof (fun e => failing_some (write_fault E) 0 e (chunks d)) as Hsome.
  destruct (written (write_fault E) 0 (chunks d)) as [done' err].
  cbn [fst snd] in *. unfold close. cbn [fds fs trace].
  rewrite !lookup_insert_eq. cbn [h_path].
  rewrite append_nil_l, !insert_insert_eq.
  rewrite delete_insert_id by apply fresh_fd_closed.
  rewrite <- !app_assoc.
  destruct err as [e|]; cbn [outcome].
  - destruct (Hsome e eq_refl) as [l Hl]. rewrite Hl.
    unfold closing_error. cbn [h_failed]. reflexivity.
  - by destruct (closing_error E _).
Qed.

Lemma printable_not_installed :
  printable E msg_not_installed = stdout_encodes E msg_not_installed.
Proof. reflexivity. Qed.

Lemma printable_opening : printable E msg_opening = true.
Proof. reflexivity. Qed.


(** *** The run, case by case *)

(** python-docx is missing and the console takes the message: the two
    messages, then the launch and the wait for the shell. *)
Lemma main_fallback w :
  docx_installed E = false →
  stdout_encodes E msg_not_installed = true →
  main E w
  = (Ok tt, {| fs := fs w; fds := fds w; trace := trace w ++ fallback_events |}).
Proof.
  intros Hi Hp. unfold main, try_except, extract.
  erewrite bind_raise by (unfold import_docx; rewrite Hi; reflexivity).
  cbn [isinstance_ImportError]. unfold fallback.
  erewrite bind_ok
    by (unfold print; rewrite printable_not_installed, Hp; reflexivity).
  erewrite bind_ok by (unfold print; rewrite printable_opening; reflexivity).
  unfold bind, subprocess_run, import_subprocess, ret, log.
  cbn [fs fds trace andb]. unfold fallback_events.
  rewrite <- !app_assoc. reflexivity.
Qed.

(** python-docx is missing and the console cannot encode the message:
    the first [print] of the handler raises and nothing else happens. *)
Lemma main_fallback_unprintable w :
  docx_installed E = false →
  stdout_encodes E msg_not_installed = false →
  main E w = (Raise UnicodeEncodeError, w).
Proof.
  intros Hi Hp. unfold main, try_except, extract.
  erewrite bind_raise by (unfold import_docx; rewrite Hi; reflexivity).
  cbn [isinstance_ImportError]. unfold fallback.
  erewrite bind_raise
    by (unfold print; rewrite printable_not_installed, Hp; reflexivity).
  reflexivity.
Qed.

(** The input is no document: [Document] raises and nothing else happens. *)
Lemma main_not_a_package w :
  docx_installed E = true →
  (fs w !! input_path = None ∨ ∃ s, fs w !! input_path = Some (Text s)) →
  main E w = (Raise (PackageNotFoundError input_path), w).
Proof.
  intros Hi Hd. unfold main, try_except, extract.
  erewrite bind_ok by (unfold import_docx; rewrite Hi; reflexivity).
  erewrite bind_raise
    by (unfold open_document; destruct Hd as [->|[s ->]]; reflexivity).
  reflexivity.
Qed.

Lemma main_corrupt w :
  docx_installed E = true →
  fs w !! input_path = Some Corrupt →
  main E w = (Raise BadZipFile, w).
Proof.
  intros Hi Hd. unfold main, try_except, extract.
  erewrite bind_ok by (unfold import_docx; rewrite Hi; reflexivity).
  erewrite bind_raise by (unfold open_document; rewrite Hd; reflexivity).
  reflexivity.
Qed.

(** The output cannot be opened: [open] raises after the document was read. *)
Lemma main_open_fault w d e :
  docx_installed E = true →
  fs w !! input_path = Some (Docx d) →
  open_fault E = Some e →
  main E w = (Raise (OSError e), w).
Proof.
  intros Hi Hd Ho. unfold main, try_except, extract.
  erewrite bind_ok by (unfold import_docx; rewrite Hi; reflexivity).
  erewrite bind_ok by (unfold open_document; rewrite Hd; reflexivity).
  erewrite bind_raise by (unfold with_open, open_w; rewrite Ho; reflexivity).
  reflexivity.
Qed.

Lemma dump_result_not_import (d : Document) e :
  dump_result E d = Raise e → isinstance_ImportError e = false.
Proof.
  unfold dump_result.
  destruct (written (write_fault E) 0 (chunks d)).2; [by intros [= <-]|].
  destruct (closing_error E _); [by intros [= <-]|done].
Qed.

(** The extraction proper. *)
Lemma main_extract w d :
  docx_installed E = true →
  fs w !! input_path = Some (Docx d) →
  open_fault E = None →
  main E w
  = (extract_result E d,
     {| fs := <[output_path := Text (output_content E d)]> (fs w);
        fds := fds w;
        trace := trace w ++ extract_events E d (fresh (dom (fds w))) |}).
Proof.
  intros Hi Hd Ho. unfold main, try_except, extract.
  erewrite bind_ok by (unfold import_docx; rewrite Hi; reflexivity).
  erewrite bind_ok by (unfold open_document; rewrite Hd; reflexivity).
  unfold bind at 1. rewrite with_open_chunks by done.
  unfold extract_events, extract_result.
  pose proof (dump_result_not_import d) as Hni.
  destruct (dump_result E d) as [[]|e].
  - unfold print. destruct (printable E msg_extracted).
    + unfold log. cbn [fs fds trace].
      do 2 f_equal. rewrite <- app_assoc. f_equal.
      cbn [app]. f_equal. rewrite <- app_assoc. reflexivity.
    + reflexivity.
  - by rewrite (Hni e eq_refl).
Qed.
End Run.

(** ** Facts about [written], the extracted text and traces *)

Lemma written_complete fault n (ls : list string) :
  (written fault n ls).2 = None → (written fault n ls).1 = ls.
Proof.
  revert n. induction ls as [|l ls IH]; intros n; [done|].
  simpl. destruct (fault n); [done|].
  specialize (IH (S n)). destruct (written fault (S n) ls) as [done' err].
  simpl in *. intros H. by rewrite IH.
Qed.

Lemma written_prefix fault n (ls : list string) :
  (written fault n ls).1 `prefix_of` ls.
Proof.
  revert n. induction ls as [|l ls IH]; intros n; [done|].
  simpl. destruct (fault n); [apply prefix_nil|].
  specialize (IH (S n)). destruct (written fault (S n) ls) as [done' err].
  simpl in *. by apply prefix_cons.
Qed.

(** The chunks handed to the file object, the failing one included, are
    the first chunks of the sequence. *)
Lemma handed_prefix fault n (ls : list string) :
  (written fault n ls).1 ++ option_list (failing fault n ls) `prefix_of` ls.
Proof.
  revert n. induction ls as [|l ls IH]; intros n; [done|].
  simpl. destruct (fault n).
  - simpl. apply prefix_cons, prefix_nil.
  - specialize (IH (S n)). destruct (written fault (S n) ls) as [done' err].
    simpl in *. by apply prefix_cons.
Qed.

(** Whatever fails, the output file holds a beginning of the text. *)
Lemma output_content_prefix E (d : Document) :
  is_prefix (output_content E d) (serialize d).
Proof.
  assert (is_prefix (handed (final_handle E d)) (serialize d)) as Hh.
  { unfold handed, final_handle, serialize. cbn [h_pending h_failed].
    apply join_prefix, handed_prefix. }
  unfold output_content, flushed.
  destruct (h_failed (final_handle E d)), (closing_error E (final_handle E d));
    try done;
    (eapply is_prefix_trans; [apply string_take_prefix|done]).
Qed.

(** When the [with] block ends well every chunk was written and the file
    holds the whole text. *)
Lemma dump_result_ok E (d : Document) :
  dump_result E d = Ok tt →
  written (write_fault E) 0 (chunks d) = (chunks d, None)
  ∧ output_content E d = serialize d.
Proof.
  unfold dump_result, output_content, flushed, final_handle.
  pose proof (written_complete (write_fault E) 0 (chunks d)) as Hc.
  pose proof (failing_none (write_fault E) 0 (chunks d)) as Hf.
  destruct (written (write_fault E) 0 (chunks d)) as [done' [e|]];
    cbn [fst snd] in *; [done|].
  rewrite Hc, Hf by done. cbn [h_failed].
  destruct (closing_error E _); [done|]. intros _. split; [done|].
  unfold handed, serialize. cbn [h_pending h_failed option_list].
  by rewrite app_nil_r.
Qed.

Lemma extract_result_ok E (d : Document) :
  extract_result E d = Ok tt →
  dump_result E d = Ok tt ∧ printable E msg_extracted = true.
Proof.
  unfold extract_result. destruct (dump_result E d) as [[]|e]; [|done].
  by destruct (printable E msg_extracted).
Qed.

Lemma ExtractedText_length (d : Document) :
  length (ExtractedText d) = length (paragraphs d) + total_rows d.
Proof.
  unfold ExtractedText, total_rows. rewrite length_app, length_map. f_equal.
  induction (tables d) as [|t ts IH]; [done|].
  simpl. by rewrite length_app, length_map, IH.
Qed.

Lemma chunks_length (d : Document) :
  length (chunks d) = length (paragraphs d) + total_rows d.
Proof. unfold chunks. by rewrite length_map, ExtractedText_length. Qed.

Lemma row_text_breaks (r : Row) :
  count_char LF (row_text r) = count_in LF (map cell_text (cells r)).
Proof. unfold row_text. rewrite count_char_join. simpl. lia. Qed.

Lemma ExtractedText_breaks (d : Document) :
  count_in LF (ExtractedText d) = embedded_breaks d.
Proof.
  unfold ExtractedText, embedded_breaks. rewrite count_in_app. f_equal.
  induction (tables d) as [|t ts IH]; [done|].
  simpl. rewrite count_in_app, IH. f_equal.
  unfold count_in at 1. rewrite map_map. f_equal.
  apply map_ext. intros r. apply row_text_breaks.
Qed.

Lemma writes_of_app (xs ys : list event) :
  writes_of (xs ++ ys) = writes_of xs ++ writes_of ys.
Proof. unfold writes_of. apply flat_map_app. Qed.

Lemma writes_of_writes f (ls : list string) :
  writes_of (map (EWrite f) ls) = ls.
Proof. induction ls as [|l ls IH]; [done|]. simpl. by rewrite IH. Qed.

Lemma new_events_app E w evs :
  trace (main E w).2 = trace w ++ evs → new_events E w = evs.
Proof. unfold new_events. intros ->. apply drop_app_length. Qed.

(** A run that ends well with python-docx installed has read a document,
    opened the output, made every write, flushed it all and printed the
    success message. *)
Lemma main_ok_inv E w :
  docx_installed E = true → (main E w).1 = Ok tt →
  ∃ d, fs w !! input_path = Some (Docx d)
       ∧ open_fault E = None
       ∧ written (write_fault E) 0 (chunks d) = (chunks d, None)
       ∧ output_content E d = serialize d
       ∧ extract_result E d = Ok tt.
Proof.
  intros Hi Hok.
  destruct (fs w !! input_path) as [[d|s|]|] eqn:Hd.
  - exists d. split; [done|].
    destruct (open_fault E) as [e|] eqn:Ho.
    { by rewrite (main_open_fault E w d e) in Hok. }
    split; [done|]. rewrite (main_extract E w d) in Hok by done.
    cbn [fst] in Hok.
    destruct (extract_result_ok E d Hok) as [Hdump _].
    destruct (dump_result_ok E d Hdump) as [Hw Hc]. done.
  - rewrite main_not_a_package in Hok; [done..|]. right. by exists s.
  - by rewrite main_corrupt in Hok.
  - rewrite main_not_a_package in Hok; [done..|]. by left.
Qed.

(** The completed extraction, in one equation. *)
Lemma main_ok E w d :
  docx_installed E = true → fs w !! input_path = Some (Docx d) →
  (main E w).1 = Ok tt →
  main E w
  = (Ok tt,
     {| fs := <[output_path := Text (serialize d)]> (fs w);
        fds := fds w;
        trace := trace w
                 ++ EOpen (fresh (dom (fds w))) output_path
                 :: map (EWrite (fresh (dom (fds w)))) (chunks d)
                 ++ [EClose (fresh (dom (fds w))); EPrint msg_extracted] |}).
Proof.
  intros Hi Hd Hok.
  destruct (main_ok_inv E w Hi Hok) as (d' & Hd' & Ho & Hw & Hc & Hr).
  assert (d' = d) as -> by congruence.
  rewrite (main_extract E w d) by done. unfold extract_events.
  by rewrite Hr, Hw, Hc.
Qed.

Lemma split_from_cons c cur a s :
  split_from c cur (String a s)
  = if Ascii.eqb a c then cur :: split_from c "" s
    else split_from c (cur +:+ String a "") s.
Proof. reflexivity. Qed.

Lemma split_from_last c cur t :
  count_char c t = 0 → split_from c cur t = [cur +:+ t].
Proof.
  revert cur. induction t as [|a t IH]; intros cur Hc.
  - by rewrite append_nil_r.
  - rewrite split_from_cons. simpl in Hc.
    destruct (Ascii.eqb a c); [lia|].
    rewrite IH by lia. by rewrite append_assoc.
Qed.

Lemma split_from_field c cur t rest :
  count_char c t = 0 →
  split_from c cur (t +:+ String c rest) = (cur +:+ t) :: split_from c "" rest.
Proof.
  revert cur. induction t as [|a t IH]; intros cur Hc.
  - rewrite append_nil_l, append_nil_r, split_from_cons.
    by rewrite Ascii.eqb_refl.
  - rewrite append_cons, split_from_cons. simpl in Hc.
    destruct (Ascii.eqb a c); [lia|].
    rewrite IH by lia. by rewrite append_assoc.
Qed.

(** Splitting a join gives the parts back, in order, when no part holds
    the separator. *)
Lemma split_join c (parts : list string) :
  parts ≠ [] → count_in c parts = 0 →
  split c (join (String c "") parts) = parts.
Proof.
  unfold split, count_in. induction parts as [|p ps IH]; [done|].
  intros _ Hc. simpl in Hc. destruct ps as [|q ps].
  - unfold join. simpl. rewrite split_from_last by lia. done.
  - rewrite join_cons_cons. rewrite append_cons, append_nil_l.
    rewrite split_from_field by lia. rewrite append_nil_l. f_equal.
    apply IH; [done|]. lia.
Qed.

(** The writes of a completed extraction are the chunks of the document. *)
Lemma main_ok_writes E w d :
  docx_installed E = true → fs w !! input_path = Some (Docx d) →
  (main E w).1 = Ok tt →
  writes_of (new_events E w) = chunks d.
Proof.
  intros Hi Hd Hok.
  erewrite new_events_app by (rewrite (main_ok E w d) by done; reflexivity).
  change (EOpen ?f ?p :: ?l) with ([EOpen f p] ++ l).
  rewrite !writes_of_app, writes_of_writes. apply app_nil_r.
Qed.

Lemma row_lines_flat (ts : list Table) :
  flat_map (fun t => map row_line (rows t)) ts
  = map row_line (flat_map rows ts).
Proof.
  induction ts as [|t ts IH]; [done|]. simpl. by rewrite map_app, IH.
Qed.

(** Every run is of one of three kinds: the fallback; an exception other
    than [ImportError] raised before anything was done; the extraction, up
    to the end or to the first failure. *)
Lemma main_cases E w :
  (docx_installed E = false
   ∧ stdout_encodes E msg_not_installed = true
   ∧ main E w = (Ok tt, {| fs := fs w; fds := fds w;
                           trace := trace w ++ fallback_events |}))
  ∨ (∃ e, isinstance_ImportError e = false ∧ main E w = (Raise e, w))
  ∨ (docx_installed E = true
     ∧ ∃ d, fs w !! input_path = Some (Docx d)
            ∧ open_fault E = None
            ∧ main E w
              = (extract_result E d,
                 {| fs := <[output_path := Text (output_content E d)]> (fs w);
                    fds := fds w;
                    trace := trace w
                             ++ extract_events E d (fresh (dom (fds w))) |})).
Proof.
  destruct (docx_installed E) eqn:Hi.
  - right. destruct (fs w !! input_path) as [[d|s|]|] eqn:Hd.
    + destruct (open_fault E) as [e|] eqn:Ho.
      * left. exists (OSError e). split; [done|].
        by apply main_open_fault with d.
      * right. split; [done|]. exists d. split; [done|]. split; [done|].
        by apply main_extract.
    + left. exists (PackageNotFoundError input_path).
      split; [done|]. apply main_not_a_package; [done|]. right. by exists s.
    + left. exists BadZipFile. split; [done|]. by apply main_corrupt.
    + left. exists (PackageNotFoundError input_path).
      split; [done|]. apply main_not_a_package; [done|]. by left.
  - destruct (stdout_encodes E msg_not_installed) eqn:Hp.
    + left. split; [done|]. split; [done|]. by apply main_fallback.
    + right. left. exists UnicodeEncodeError. split; [done|].
      by apply main_fallback_unprintable.
Qed.

Lemma new_events_nil E w : trace (main E w).2 = trace w → new_events E w = [].
Proof. intros H. apply new_events_app. by rewrite app_nil_r. Qed.

Lemma existsb_launch_writes f (ls : list string) :
  existsb launch_effect (map (EWrite f) ls) = false.
Proof. induction ls as [|l ls IH]; [done|]. simpl. exact IH. Qed.

Lemma extract_events_no_launch E d fd :
  existsb launch_effect (extract_events E d fd) = false.
Proof.
  unfold extract_events. simpl. rewrite existsb_app, existsb_launch_writes.
  simpl. by destruct (extract_result E d).
Qed.

(** ** The claims *)

(** *** C1 *)

(** C1, as stated, fails: a document whose single paragraph holds a line
    break is extracted completely, and the output file has two lines where
    the claim counts one (N = 1 paragraph, no table). *)
Lemma C1_line_count_counterexample :
  ¬ (∀ E w d s,
       docx_installed E = true →
       fs w !! input_path = Some (Docx d) →
       (main E w).1 = Ok tt →
       fs (main E w).2 !! output_path = Some (Text s) →
       length (file_lines s) = length (paragraphs d) + total_rows d).
Proof.
  intros H.
  specialize (H Sample.env_ok (Sample.world_of Sample.doc_break)
                Sample.doc_break ("a" +:+ nl +:+ "b" +:+ nl)
                eq_refl eq_refl eq_refl eq_refl).
  vm_compute in H. discriminate.
Qed.

(** C1, amended: when python-docx is available and the extraction
    completes on a document with N paragraphs, the program has made
    exactly N + (total rows) writes, each ending with a line break, and the
    output file has exactly N + (total rows) + B lines, where B counts the
    line breaks that sit inside the paragraph and cell texts; with no such
    line break the file has exactly N + (total rows) lines. *)
Theorem C1_line_count E w d :
  docx_installed E = true →
  fs w !! input_path = Some (Docx d) →
  (main E w).1 = Ok tt →
  ∃ s, fs (main E w).2 !! output_path = Some (Text s)
       ∧ length (writes_of (new_events E w))
         = length (paragraphs d) + total_rows d
       ∧ Forall (fun chunk => ∃ l, chunk = l +:+ nl) (writes_of (new_events E w))
       ∧ length (file_lines s)
         = length (paragraphs d) + total_rows d + embedded_breaks d
       ∧ (embedded_breaks d = 0 →
          length (file_lines s) = length (paragraphs d) + total_rows d).
Proof.
  intros Hi Hd Hok. pose proof (main_ok E w d Hi Hd Hok) as Hm.
  exists (serialize d).
  pose proof (main_ok_writes E w d Hi Hd Hok) as Hw.
  assert (length (file_lines (serialize d))
          = length (paragraphs d) + total_rows d + embedded_breaks d) as Hl.
  { unfold serialize, chunks.
    by rewrite file_lines_join_length, ExtractedText_length, ExtractedText_breaks. }
  rewrite Hm, Hw. cbn [snd fs]. rewrite lookup_insert_eq.
  split; [done|]. split; [apply chunks_length|]. split.
  - unfold chunks. apply Forall_forall. intros c Hc.
    apply list_elem_of_fmap in Hc as (l & -> & _). by exists l.
  - split; [done|]. intros Hb. rewrite Hl, Hb. lia.
Qed.

Lemma C1_line_count_witness :
  ∃ s, fs (main Sample.env_ok (Sample.world_stale Sample.doc)).2 !! output_path
       = Some (Text s)
       ∧ length (file_lines s) = 5.
Proof.
  destruct (C1_line_count Sample.env_ok (Sample.world_stale Sample.doc) Sample.doc
              eq_refl eq_refl eq_refl) as (s & Hs & _ & _ & Hl & _).
  exists s. split; [exact Hs|]. rewrite Hl. reflexivity.
Defined.

(** *** C2 *)

(** C2: the writes of a completed extraction are the paragraph lines in
    document order, followed by the row lines, table after table in
    document order and row after row within a table; the output file holds
    these chunks in that order; and a row's line holds the row's cell
    texts from left to right (splitting it at the tabs gives them back
    when no cell text holds a tab). *)
Theorem C2_order E w d :
  docx_installed E = true →
  fs w !! input_path = Some (Docx d) →
  (main E w).1 = Ok tt →
  writes_of (new_events E w)
  = map para_line (paragraphs d)
    ++ flat_map (fun t => map row_line (rows t)) (tables d)
  ∧ fs (main E w).2 !! output_path
    = Some (Text (join "" (map para_line (paragraphs d)
                           ++ flat_map (fun t => map row_line (rows t)) (tables d))))
  ∧ (∀ i p, paragraphs d !! i = Some p →
            writes_of (new_events E w) !! i = Some (para_line p))
  ∧ (∀ j r, flat_map rows (tables d) !! j = Some r →
            writes_of (new_events E w) !! (length (paragraphs d) + j)
            = Some (row_line r))
  ∧ (∀ r, cells r ≠ [] → count_in TAB (map cell_text (cells r)) = 0 →
          ∃ l, row_line r = l +:+ nl ∧ split TAB l = map cell_text (cells r))
  ∧ (embedded_breaks d = 0 →
     ∃ s, fs (main E w).2 !! output_path = Some (Text s)
          ∧ file_lines s = ExtractedText d).
Proof.
  intros Hi Hd Hok.
  pose proof (main_ok_writes E w d Hi Hd Hok) as Hw.
  pose proof (main_ok E w d Hi Hd Hok) as Hm.
  rewrite Hw, Hm. cbn [snd fs]. rewrite lookup_insert_eq.
  unfold serialize. rewrite chunks_lines.
  split; [done|]. split; [done|]. split; [|split; [|split]].
  - intros i p Hp. rewrite lookup_app_l.
    + by rewrite list_lookup_fmap, Hp.
    + rewrite length_map. by eapply lookup_lt_Some.
  - intros j r Hr.
    rewrite lookup_app_r by (rewrite length_map; lia).
    rewrite length_map, Nat.add_comm, Nat.add_sub.
    by rewrite row_lines_flat, list_lookup_fmap, Hr.
  - intros r Hne Hc. exists (row_text r). split; [done|].
    unfold row_text. apply (split_join TAB); [|done].
    by destruct (cells r).
  - intros Hb. eexists. split; [done|].
    rewrite <- chunks_lines. unfold chunks. apply file_lines_join.
    by rewrite ExtractedText_breaks.
Qed.

Lemma C2_order_witness :
  writes_of (new_events Sample.env_ok (Sample.world_of Sample.doc))
  = ["Fund" +:+ nl; "Fees" +:+ nl;
     "ISIN" +:+ tab +:+ "Name" +:+ nl; "IE00" +:+ tab +:+ "World" +:+ nl;
     "TER" +:+ nl].
Proof.
  destruct (C2_order Sample.env_ok (Sample.world_of Sample.doc) Sample.doc
              eq_refl eq_refl eq_refl) as [Hw _].
  rewrite Hw. reflexivity.
Defined.

(** *** C5 *)

(** C5, as stated, fails: a row of two cells whose first cell text holds a
    tab is written as a line with two tabs, not one. *)
Lemma C5_tabs_counterexample :
  ¬ (∀ E w d j r,
       docx_installed E = true →
       fs w !! input_path = Some (Docx d) →
       (main E w).1 = Ok tt →
       flat_map rows (tables d) !! j = Some r →
       ∃ line, writes_of (new_events E w) !! (length (paragraphs d) + j) = Some line
               ∧ count_char TAB line = length (cells r) - 1).
Proof.
  intros H.
  destruct (H Sample.env_ok (Sample.world_of Sample.doc_tabbed) Sample.doc_tabbed
              0 Sample.row_tabbed eq_refl eq_refl eq_refl eq_refl)
    as (line & Hl & Hc).
  vm_compute in Hl. injection Hl as <-. vm_compute in Hc. discriminate.
Qed.

(** C5, amended: in a completed extraction the line written for a table
    row is the join of the row's cell texts with a tab, followed by a line
    break, and it holds exactly (number of cells minus 1, or 0 for a row
    without cells) + T tabs, where T counts the tabs that sit inside the
    row's cell texts; with no tab inside the cell texts that is
    (number of cells - 1). *)
Theorem C5_tabs E w d j r :
  docx_installed E = true →
  fs w !! input_path = Some (Docx d) →
  (main E w).1 = Ok tt →
  flat_map rows (tables d) !! j = Some r →
  ∃ line, writes_of (new_events E w) !! (length (paragraphs d) + j) = Some line
          ∧ line = join tab (map cell_text (cells r)) +:+ nl
          ∧ count_char TAB line
            = pred (length (cells r)) + count_in TAB (map cell_text (cells r))
          ∧ (count_in TAB (map cell_text (cells r)) = 0 →
             count_char TAB line = length (cells r) - 1).
Proof.
  intros Hi Hd Hok Hr. exists (row_line r).
  assert (count_char TAB (row_line r)
          = pred (length (cells r)) + count_in TAB (map cell_text (cells r))) as Hc.
  { unfold row_line.
    rewrite count_char_app, count_char_join, length_map. simpl. lia. }
  split; [|split; [done|split; [done|]]].
  - rewrite (main_ok_writes E w d) by done. rewrite chunks_lines.
    rewrite lookup_app_r by (rewrite length_map; lia).
    rewrite length_map, Nat.add_comm, Nat.add_sub.
    by rewrite row_lines_flat, list_lookup_fmap, Hr.
  - intros Ht. rewrite Hc, Ht. lia.
Qed.

Lemma C5_tabs_witness :
  ∃ line,
    writes_of (new_events Sample.env_ok (Sample.world_of Sample.doc)) !! 3
    = Some line
    ∧ count_char TAB line = 1.
Proof.
  destruct (C5_tabs Sample.env_ok (Sample.world_of Sample.doc) Sample.doc 1
              {| cells := [Sample.cell "IE00"; Sample.cell "World"] |}
              eq_refl eq_refl eq_refl eq_refl) as (line & Hl & _ & Hc & _).
  exists line. split; [exact Hl|]. rewrite Hc. reflexivity.
Defined.

(** *** C3 *)




(** *** C4 *)

(** C4: with python-docx installed, a failure of another kind is not
    caught by the [except ImportError] clause and leaves the run as the
    exception it raised: a missing input file and a corrupt document fail
    in [Document], before the output file is opened, so the world is left
    as it was and no output file is created; a failing [open] leaves it as
    it was too; a failing write leaves the run with its [OSError]. *)
Theorem C4_other_failures E w :
  docx_installed E = true →
  (fs w !! input_path = None →
   main E w = (Raise (PackageNotFoundError input_path), w)
   ∧ isinstance_ImportError (PackageNotFoundError input_path) = false
   ∧ new_events E w = []
   ∧ fs (main E w).2 !! output_path = fs w !! output_path)
  ∧ (fs w !! input_path = Some Corrupt →
     main E w = (Raise BadZipFile, w) ∧ new_events E w = [])
  ∧ (∀ d e, fs w !! input_path = Some (Docx d) → open_fault E = Some e →
            main E w = (Raise (OSError e), w))
  ∧ (∀ d e, fs w !! input_path = Some (Docx d) → open_fault E = None →
            (written (write_fault E) 0 (chunks d)).2 = Some e →
            (main E w).1 = Raise (OSError e))
  ∧ (∀ e w', extract E w = (Raise e, w') → isinstance_ImportError e = false →
             main E w = (Raise e, w')).
Proof.
  intros Hi. split; [|split; [|split; [|split]]].
  - intros Hd.
    assert (main E w = (Raise (PackageNotFoundError input_path), w)) as Hm
      by (apply main_not_a_package; [done|by left]).
    split; [done|]. split; [done|]. split; [|by rewrite Hm].
    apply new_events_nil. by rewrite Hm.
  - intros Hd. pose proof (main_corrupt E w Hi Hd) as Hm.
    split; [done|]. apply new_events_nil. by rewrite Hm.
  - intros d e Hd Ho. by apply main_open_fault with d.
  - intros d e Hd Ho Hw. rewrite (main_extract E w d) by done.
    cbn [fst]. unfold extract_result, dump_result. by rewrite Hw.
  - intros e w' He Hc. unfold main, try_except. by rewrite He, Hc.
Qed.

Lemma C4_other_failures_witness :
  main Sample.env_ok Sample.world_bare
  = (Raise (PackageNotFoundError input_path), Sample.world_bare)
  ∧ main Sample.env_read_only (Sample.world_of Sample.doc)
    = (Raise (OSError EACCES), Sample.world_of Sample.doc)
  ∧ (main Sample.env_disk_full (Sample.world_of Sample.doc)).1
    = Raise (OSError ENOSPC).
Proof.
  split; [|split].
  - destruct (C4_other_failures Sample.env_ok Sample.world_bare eq_refl)
      as (H & _).
    destruct (H eq_refl) as (Hm & _). exact Hm.
  - destruct (C4_other_failures Sample.env_read_only (Sample.world_of Sample.doc)
                eq_refl) as (_ & _ & H & _).
    apply (H Sample.doc EACCES); reflexivity.
  - destruct (C4_other_failures Sample.env_disk_full (Sample.world_of Sample.doc)
                eq_refl) as (_ & _ & _ & H & _).
    apply (H Sample.doc ENOSPC); reflexivity.
Defined.

(** *** C6 *)

(** C6: two runs in a row on the same document, both with python-docx
    installed and both completing, leave the same output file, whose
    content is the serialized text of the document and nothing else: the
    second run truncates what the first one wrote and leaves the whole
    file system as the first run left it. *)
Theorem C6_idempotent E1 E2 w d :
  fs w !! input_path = Some (Docx d) →
  docx_installed E1 = true → docx_installed E2 = true →
  (main E1 w).1 = Ok tt →
  (main E2 (main E1 w).2).1 = Ok tt →
  fs (main E1 w).2 !! output_path = Some (Text (serialize d))
  ∧ fs (main E2 (main E1 w).2).2 !! output_path
    = fs (main E1 w).2 !! output_path
  ∧ fs (main E2 (main E1 w).2).2 = fs (main E1 w).2.
Proof.
  intros Hd H1 H2 Hok1 Hok2.
  pose proof (main_ok E1 w d H1 Hd Hok1) as Hm1.
  assert (fs (main E1 w).2 !! input_path = Some (Docx d)) as Hd2.
  { rewrite Hm1. cbn [snd fs]. by rewrite lookup_insert_ne. }
  pose proof (main_ok E2 _ d H2 Hd2 Hok2) as Hm2.
  rewrite Hm2. cbn [snd fs]. rewrite Hm1. cbn [snd fs].
  rewrite insert_insert_eq, lookup_insert_eq. done.
Qed.

Lemma C6_idempotent_witness :
  fs (main Sample.env_ok (main Sample.env_ok (Sample.world_stale Sample.doc)).2).2
     !! output_path
  = Some (Text (serialize Sample.doc)).
Proof.
  destruct (C6_idempotent Sample.env_ok Sample.env_ok
              (Sample.world_stale Sample.doc) Sample.doc
              eq_refl eq_refl eq_refl eq_refl eq_refl) as (H1 & H2 & _).
  rewrite H2. exact H1.
Defined.

(** Membership of an event in an explicit list of other events. *)
Ltac absurd_member H :=
  repeat (apply elem_of_cons in H as [H|H]; [discriminate H|]);
  by apply elem_of_nil in H.

Lemma dump_result_raise E (d : Document) e :
  dump_result E d = Raise e → ∃ e', e = OSError e'.
Proof.
  unfold dump_result.
  destruct (written (write_fault E) 0 (chunks d)).2 as [e'|].
  - intros [= <-]. by exists e'.
  - destruct (closing_error E _) as [e'|]; [|done]. intros [= <-]. by exists e'.
Qed.

(** An extraction that does not end with an [OSError] has left the [with]
    block well. *)
Lemma extract_result_flushed E (d : Document) :
  (∀ e, extract_result E d ≠ Raise (OSError e)) → dump_result E d = Ok tt.
Proof.
  unfold extract_result. intros Hno.
  pose proof (dump_result_raise E d) as Hr.
  destruct (dump_result E d) as [[]|e]; [done|].
  destruct (Hr e eq_refl) as [e' ->]. by destruct (Hno e').
Qed.

(** *** C7 *)

(** C7, as stated, fails: with the disk full from the start every write
    call returns (the text is buffered), the flush at close fails, and the
    closed file holds none of the text the writes have taken. *)
Lemma C7_handle_released_counterexample :
  ¬ (∀ E w fd p, EOpen fd p ∈ new_events E w →
        fds (main E w).2 !! fd = None
        ∧ fs (main E w).2 !! p
          = Some (Text (join "" (writes_of (new_events E w))))).
Proof.
  intros H.
  destruct (H Sample.env_close_fault (Sample.world_of Sample.doc) 0 output_path)
    as [_ Hfs].
  { vm_compute. left. }
  vm_compute in Hfs. discriminate.
Qed.

(** C7, amended: whatever the environment does (a failing write or a
    failing flush included), the run leaves the table of open files as it
    found it; and when it has opened a file, the events of the run are the
    opening, the writes that returned, the closing and nothing more on
    files, and the file object is gone at the end.  The close flushes what
    was written: the file holds everything written unless the run ends
    with an [OSError], and in every case a beginning of the serialized
    text of the document. *)
Theorem C7_handle_released E w :
  fds (main E w).2 = fds w
  ∧ (∀ fd p, EOpen fd p ∈ new_events E w →
       fds (main E w).2 !! fd = None
       ∧ ∃ done rest content,
           new_events E w
           = EOpen fd p :: map (EWrite fd) done ++ EClose fd :: rest
           ∧ existsb file_effect rest = false
           ∧ fs (main E w).2 !! p = Some (Text content)
           ∧ ((∀ e, (main E w).1 ≠ Raise (OSError e)) → content = join "" done)
           ∧ ∃ d, fs w !! input_path = Some (Docx d)
                  ∧ is_prefix content (serialize d)).
Proof.
  destruct (main_cases E w)
    as [(_ & _ & Hm)|[(e & _ & Hm)|(_ & d & Hd & _ & Hm)]].
  - split; [by rewrite Hm|]. intros fd p Hin.
    rewrite (new_events_app E w fallback_events) in Hin by (by rewrite Hm).
    unfold fallback_events in Hin. absurd_member Hin.
  - split; [by rewrite Hm|]. intros fd p Hin.
    rewrite new_events_nil in Hin by (by rewrite Hm). absurd_member Hin.
  - split; [by rewrite Hm|]. intros fd p Hin.
    rewrite (new_events_app E w (extract_events E d (fresh (dom (fds w)))))
      in * by (by rewrite Hm).
    rewrite Hm. cbn [fst snd fds fs]. unfold extract_events in *.
    assert (fd = fresh (dom (fds w)) ∧ p = output_path) as [-> ->].
    { apply elem_of_cons in Hin as [Heq|Hin]; [by inversion Heq|].
      apply elem_of_app in Hin as [Hin|Hin].
      - apply list_elem_of_fmap in Hin as (l & Heq & _). discriminate.
      - apply elem_of_cons in Hin as [Heq|Hin]; [discriminate|].
        destruct (extract_result E d); absurd_member Hin. }
    split; [apply fresh_fd_closed|].
    eexists _, _, _. split; [reflexivity|]. split; [|split; [|split]].
    + by destruct (extract_result E d).
    + apply lookup_insert_eq.
    + intros Hno. apply extract_result_flushed in Hno.
      destruct (dump_result_ok E d Hno) as [Hw ->]. by rewrite Hw.
    + exists d. split; [done|]. apply output_content_prefix.
Qed.

Lemma C7_handle_released_witness :
  (main Sample.env_disk_full (Sample.world_of Sample.doc)).1
  = Raise (OSError ENOSPC)
  ∧ fds (main Sample.env_disk_full (Sample.world_of Sample.doc)).2 = ∅
  ∧ ∃ content,
      fs (main Sample.env_disk_full (Sample.world_of Sample.doc)).2 !! output_path
      = Some (Text content)
      ∧ is_prefix content (serialize Sample.doc).
Proof.
  destruct (C7_handle_released Sample.env_disk_full (Sample.world_of Sample.doc))
    as [Hf Hc].
  split; [reflexivity|]. split; [exact Hf|].
  destruct (Hc 0 output_path)
    as (_ & done' & rest & content & _ & _ & Hfs & _ & d & Hd & Hp).
  { vm_compute. left. }
  exists content. split; [exact Hfs|].
  injection Hd as <-. exact Hp.
Defined.

(** *** C8 *)




(** *** C9 *)

(** C9: in every run, when python-docx is missing no event of the run
    touches a file and the file system and the open files are left as they
    were; when it is installed no event of the run is a launch; so no run
    has both a file event and a launch. *)
Theorem C9_exclusive_paths E w :
  (docx_installed E = false →
   existsb file_effect (new_events E w) = false
   ∧ fs (main E w).2 = fs w ∧ fds (main E w).2 = fds w)
  ∧ (docx_installed E = true →
     existsb launch_effect (new_events E w) = false)
  ∧ existsb file_effect (new_events E w)
    && existsb launch_effect (new_events E w) = false.
Proof.
  destruct (main_cases E w)
    as [(Hi & _ & Hm)|[(e & _ & Hm)|(Hi & d & _ & _ & Hm)]].
  - rewrite (new_events_app E w fallback_events) by (by rewrite Hm).
    rewrite Hi, Hm. done.
  - rewrite new_events_nil by (by rewrite Hm). rewrite Hm. done.
  - rewrite (new_events_app E w (extract_events E d (fresh (dom (fds w)))))
      by (by rewrite Hm).
    rewrite Hi, extract_events_no_launch, andb_false_r. done.
Qed.

Lemma C9_exclusive_paths_witness :
  existsb file_effect
    (new_events Sample.env_no_docx (Sample.world_of Sample.doc)) = false
  ∧ existsb launch_effect
      (new_events Sample.env_ok (Sample.world_of Sample.doc)) = false.
Proof.
  split.
  - destruct (C9_exclusive_paths Sample.env_no_docx (Sample.world_of Sample.doc))
      as (H & _). destruct (H eq_refl) as (Hf & _). exact Hf.
  - destruct (C9_exclusive_paths Sample.env_ok (Sample.world_of Sample.doc))
      as (_ & H & _). exact (H eq_refl).
Defined.

(** *** C10 *)



(** * Further properties of the script *)

(** A sequence of writes whose first failing call is the [k]-th one gets
    the first [k] chunks through and stops with that call's error. *)
Lemma written_first_fault fault n k e (ls : list string) :
  k < length ls →
  (∀ j, j < k → fault (n + j) = None) →
  fault (n + k) = Some e →
  written fault n ls = (take k ls, Some e).
Proof.
  revert n k. induction ls as [|l ls IH]; intros n k Hk Hnone Hsome.
  - simpl in Hk. lia.
  - destruct k as [|k].
    + rewrite Nat.add_0_r in Hsome. simpl. by rewrite Hsome.
    + pose proof (Hnone 0 ltac:(lia)) as H0. rewrite Nat.add_0_r in H0.
      simpl. rewrite H0. rewrite (IH (S n) k); [done| |..].
      * simpl in Hk. lia.
      * intros j Hj. rewrite <- (Hnone (S j)) by lia. f_equal. lia.
      * rewrite <- Hsome. f_equal. lia.
Qed.

Lemma failing_first_fault fault n k e (ls : list string) :
  k < length ls →
  (∀ j, j < k → fault (n + j) = None) →
  fault (n + k) = Some e →
  failing fault n ls = ls !! k.
Proof.
  revert n k. induction ls as [|l ls IH]; intros n k Hk Hnone Hsome.
  - simpl in Hk. lia.
  - destruct k as [|k].
    + rewrite Nat.add_0_r in Hsome. simpl. by rewrite Hsome.
    + pose proof (Hnone 0 ltac:(lia)) as H0. rewrite Nat.add_0_r in H0.
      simpl. rewrite H0. apply (IH (S n) k).
      * simpl in Hk. lia.
      * intros j Hj. rewrite <- (Hnone (S j)) by lia. f_equal. lia.
      * rewrite <- Hsome. f_equal. lia.
Qed.

(** The events of an extraction, one by one. *)
Lemma extract_events_member E d fd ev :
  ev ∈ extract_events E d fd →
  ev = EOpen fd output_path
  ∨ (∃ l, ev = EWrite fd l ∧ l ∈ (written (write_fault E) 0 (chunks d)).1)
  ∨ ev = EClose fd
  ∨ (ev = EPrint msg_extracted ∧ extract_result E d = Ok tt).
Proof.
  unfold extract_events. intros Hin.
  apply elem_of_cons in Hin as [->|Hin]; [by left|].
  apply elem_of_app in Hin as [Hin|Hin].
  { apply list_elem_of_fmap in Hin as (l & -> & Hl). right. left. by exists l. }
  apply elem_of_cons in Hin as [->|Hin]; [by right; right; left|].
  destruct (extract_result E d) as [[]|e].
  - apply elem_of_cons in Hin as [->|Hin]; [by right; right; right|].
    by apply elem_of_nil in Hin.
  - by apply elem_of_nil in Hin.
Qed.

(** The three kinds of run, seen from the events they add. *)
Lemma new_events_cases E w :
  (docx_installed E = false
   ∧ (main E w).1 = Ok tt ∧ fs (main E w).2 = fs w
   ∧ new_events E w = fallback_events)
  ∨ ((∃ e, isinstance_ImportError e = false ∧ (main E w).1 = Raise e)
     ∧ fs (main E w).2 = fs w
     ∧ new_events E w = [])
  ∨ (docx_installed E = true
     ∧ ∃ d, fs w !! input_path = Some (Docx d)
            ∧ open_fault E = None
            ∧ (main E w).1 = extract_result E d
            ∧ fs (main E w).2
              = <[output_path := Text (output_content E d)]> (fs w)
            ∧ new_events E w = extract_events E d (fresh (dom (fds w)))).
Proof.
  destruct (main_cases E w)
    as [(Hi & _ & Hm)|[(e & He & Hm)|(Hi & d & Hd & Ho & Hm)]].
  - left. split; [done|]. rewrite Hm. split; [done|]. split; [done|].
    apply new_events_app. by rewrite Hm.
  - right. left. split; [exists e; by rewrite Hm|].
    split; [by rewrite Hm|]. apply new_events_nil. by rewrite Hm.
  - right. right. split; [done|]. exists d. rewrite Hm.
    do 4 (split; [done|]). apply new_events_app. by rewrite Hm.
Qed.

Lemma ExtractedText_flatten (d : Document) :
  ExtractedText (flatten d) = ExtractedText d.
Proof.
  unfold flatten, ExtractedText at 1. cbn [paragraphs tables flat_map].
  rewrite app_nil_r, map_map. apply map_id.
Qed.

(** X1: when the output is open and the first write call that raises is
    the [k]-th one, the run ends with that call's [OSError], the calls that
    returned are the first [k] chunks, the success message is not printed,
    and the output file is left behind (it is not removed) holding the
    bytes that had reached it: a beginning of the text of the first
    [k + 1] chunks, which need not end at a chunk. *)
Theorem X1_partial_output E w d k e :
  docx_installed E = true →
  fs w !! input_path = Some (Docx d) →
  open_fault E = None →
  k < length (paragraphs d) + total_rows d →
  (∀ j, j < k → write_fault E j = None) →
  write_fault E k = Some e →
  (main E w).1 = Raise (OSError e)
  ∧ writes_of (new_events E w) = take k (chunks d)
  ∧ fs (main E w).2 !! output_path
    = Some (Text (string_take (persisted E) (join "" (take (S k) (chunks d)))))
  ∧ is_prefix (string_take (persisted E) (join "" (take (S k) (chunks d))))
              (serialize d)
  ∧ EPrint msg_extracted ∉ new_events E w.
Proof.
  intros Hi Hd Ho Hk Hnone Hsome.
  rewrite <- chunks_length in Hk.
  assert (written (write_fault E) 0 (chunks d) = (take k (chunks d), Some e)) as Hw
    by (by apply written_first_fault).
  destruct (lookup_lt_is_Some_2 (chunks d) k Hk) as [l Hl].
  assert (failing (write_fault E) 0 (chunks d) = Some l) as Hf.
  { rewrite <- Hl. by apply failing_first_fault with e. }
  assert (extract_result E d = Raise (OSError e)) as Hr.
  { unfold extract_result, dump_result. by rewrite Hw. }
  assert (output_content E d
          = string_take (persisted E) (join "" (take (S k) (chunks d)))) as Hc.
  { unfold output_content, flushed, final_handle, handed.
    cbn [h_failed h_pending]. rewrite Hw, Hf. cbn [fst option_list].
    by rewrite (take_S_r _ _ l). }
  pose proof (main_extract E w d Hi Hd Ho) as Hm.
  unfold extract_events in Hm. rewrite Hr, Hc, Hw in Hm. cbn [fst] in Hm.
  assert (new_events E w
          = EOpen (fresh (dom (fds w))) output_path
            :: map (EWrite (fresh (dom (fds w)))) (take k (chunks d))
            ++ [EClose (fresh (dom (fds w)))]) as Hev.
  { apply new_events_app. by rewrite Hm. }
  rewrite Hev, Hm. cbn [fst snd fs].
  split; [done|]. split; [|split; [|split]].
  - change (EOpen ?f ?p :: ?ls) with ([EOpen f p] ++ ls).
    rewrite !writes_of_app, writes_of_writes. apply app_nil_r.
  - apply lookup_insert_eq.
  - rewrite <- Hc. apply output_content_prefix.
  - intros Hin. apply elem_of_cons in Hin as [Hin|Hin]; [discriminate|].
    apply elem_of_app in Hin as [Hin|Hin].
    + apply list_elem_of_fmap in Hin as (l' & Hl' & _). discriminate.
    + absurd_member Hin.
Qed.

Lemma X1_partial_output_witness :
  (main Sample.env_disk_full (Sample.world_stale Sample.doc)).1
  = Raise (OSError ENOSPC)
  ∧ fs (main Sample.env_disk_full (Sample.world_stale Sample.doc)).2 !! output_path
    = Some (Text ("Fund" +:+ nl +:+ "Fe")).
Proof.
  assert (∀ j, j < 2 → write_fault Sample.env_disk_full j = None) as Hnone.
  { intros [|[|j]] Hj; [reflexivity|reflexivity|lia]. }
  destruct (X1_partial_output Sample.env_disk_full (Sample.world_stale Sample.doc)
              Sample.doc 2 ENOSPC eq_refl eq_refl eq_refl
              ltac:(vm_compute; lia) Hnone eq_refl) as (Hr & _ & Hf & _).
  split; [exact Hr|]. rewrite Hf. reflexivity.
Defined.

(** X2: no run touches a path other than the output path: every other
    file, the input document among them, is after the run what it was
    before, whatever the outcome. *)
Theorem X2_only_output_changes E w p :
  p ≠ output_path →
  fs (main E w).2 !! p = fs w !! p.
Proof.
  intros Hp.
  destruct (new_events_cases E w)
    as [(_ & _ & Hfs & _)|[(_ & Hfs & _)|(_ & d & _ & _ & _ & Hfs & _)]];
    rewrite Hfs; [done|done|].
  by rewrite lookup_insert_ne.
Qed.

Lemma X2_only_output_changes_witness :
  fs (main Sample.env_ok (Sample.world_stale Sample.doc)).2 !! input_path
  = Some (Docx Sample.doc).
Proof.
  rewrite (X2_only_output_changes Sample.env_ok (Sample.world_stale Sample.doc)
             input_path); [reflexivity|discriminate].
Defined.

(** X3: the success message is printed exactly by the runs that have
    python-docx and end without an exception; it is then the last event of
    the run, after the output file was closed. *)
Theorem X3_success_message E w :
  (EPrint msg_extracted ∈ new_events E w
   ↔ docx_installed E = true ∧ (main E w).1 = Ok tt)
  ∧ (EPrint msg_extracted ∈ new_events E w →
     ∃ fd evs, new_events E w = evs ++ [EClose fd; EPrint msg_extracted]
               ∧ EPrint msg_extracted ∉ evs).
Proof.
  destruct (new_events_cases E w)
    as [(Hi & Hr & _ & Hev)|[((e & _ & Hr) & _ & Hev)
                            |(Hi & d & _ & _ & Hr & _ & Hev)]];
    rewrite Hev, Hr.
  - rewrite Hi.
    assert (EPrint msg_extracted ∉ fallback_events) as Hnot.
    { unfold fallback_events. intros Hin.
      apply elem_of_cons in Hin as [Hin|Hin]; [by vm_compute in Hin|].
      apply elem_of_cons in Hin as [Hin|Hin]; [by vm_compute in Hin|].
      absurd_member Hin. }
    split; [split; [done|by intros [? _]]|done].
  - split.
    + split; [intros Hin; by apply elem_of_nil in Hin|by intros [_ ?]].
    + intros Hin. by apply elem_of_nil in Hin.
  - rewrite Hi.
    assert (EPrint msg_extracted ∉
              EOpen (fresh (dom (fds w))) output_path
              :: map (EWrite (fresh (dom (fds w))))
                   (written (write_fault E) 0 (chunks d)).1) as Hnot.
    { intros Hin. apply elem_of_cons in Hin as [Hin|Hin]; [discriminate|].
      apply list_elem_of_fmap in Hin as (l & Hl & _). discriminate. }
    unfold extract_events.
    destruct (extract_result E d) as [[]|e].
    + split.
      * split; [done|]. intros _. rewrite app_comm_cons.
        apply elem_of_app. right. apply elem_of_cons. right. apply elem_of_cons.
        by left.
      * intros _. eexists _, _. split; [by rewrite app_comm_cons|done].
    + assert (EPrint msg_extracted ∉
                EOpen (fresh (dom (fds w))) output_path
                :: map (EWrite (fresh (dom (fds w))))
                     (written (write_fault E) 0 (chunks d)).1
                ++ [EClose (fresh (dom (fds w)))]) as Hno.
      { rewrite app_comm_cons. intros Hin.
        apply elem_of_app in Hin as [Hin|Hin]; [done|]. absurd_member Hin. }
      split; [split; [done|by intros [_ ?]]|done].
Qed.

Lemma X3_success_message_witness :
  EPrint msg_extracted
    ∈ new_events Sample.env_ok (Sample.world_of Sample.doc)
  ∧ EPrint msg_extracted
    ∉ new_events Sample.env_disk_full (Sample.world_of Sample.doc).
Proof.
  split.
  - apply (X3_success_message Sample.env_ok (Sample.world_of Sample.doc)).
    split; reflexivity.
  - intros Hin.
    apply (X3_success_message Sample.env_disk_full (Sample.world_of Sample.doc))
      in Hin as [_ Hr].
    vm_compute in Hr. discriminate.
Defined.

(** X4: a run writes to and closes only the file object it has opened
    itself: no event of the run is about a file object that was open when
    the run started. *)
Theorem X4_foreign_files_untouched E w ev fd :
  ev ∈ new_events E w →
  event_fd ev = Some fd →
  fds w !! fd = None.
Proof.
  intros Hin Hfd.
  destruct (new_events_cases E w)
    as [(_ & _ & _ & Hev)|[(_ & _ & Hev)|(_ & d & _ & _ & _ & _ & Hev)]];
    rewrite Hev in Hin.
  - unfold fallback_events in Hin.
    repeat (apply elem_of_cons in Hin as [->|Hin]; [discriminate|]).
    by apply elem_of_nil in Hin.
  - by apply elem_of_nil in Hin.
  - apply extract_events_member in Hin
      as [->|[(l & -> & _)|[->|[-> _]]]]; simpl in Hfd;
      try discriminate; injection Hfd as <-; apply fresh_fd_closed.
Qed.

Lemma X4_foreign_files_untouched_witness :
  fds (Sample.world_busy Sample.doc) !! 1 = None
  ∧ fds (main Sample.env_ok (Sample.world_busy Sample.doc)).2 !! 0
    = Some (Handle "notes.txt" ["draft"] None).
Proof.
  split; [|reflexivity].
  apply (X4_foreign_files_untouched Sample.env_ok (Sample.world_busy Sample.doc)
           (EWrite 1 ("Fund" +:+ nl)) 1); [|reflexivity].
  vm_compute. right. left.
Defined.

(** X5: the output keeps no trace of the document's structure: two
    documents with the same sequence of extracted lines give the same
    result and the same output file; in particular a document and the one
    made of its extracted lines as paragraphs, without any table, are
    extracted to the same file. *)
Theorem X5_structure_lost E w1 w2 d1 d2 :
  docx_installed E = true →
  open_fault E = None →
  fs w1 !! input_path = Some (Docx d1) →
  fs w2 !! input_path = Some (Docx d2) →
  (ExtractedText d1 = ExtractedText d2 →
   (main E w1).1 = (main E w2).1
   ∧ fs (main E w1).2 !! output_path = fs (main E w2).2 !! output_path)
  ∧ (d2 = flatten d1 →
     fs (main E w1).2 !! output_path = fs (main E w2).2 !! output_path).
Proof.
  intros Hi Ho Hd1 Hd2.
  assert (ExtractedText d1 = ExtractedText d2 →
          (main E w1).1 = (main E w2).1
          ∧ fs (main E w1).2 !! output_path = fs (main E w2).2 !! output_path)
    as Hsame.
  { intros Heq.
    rewrite (main_extract E w1 d1), (main_extract E w2 d2) by done.
    assert (chunks d1 = chunks d2) as Hc by (unfold chunks; by rewrite Heq).
    unfold extract_result, dump_result, output_content, final_handle.
    rewrite Hc. cbn [fst snd fs]. by rewrite !lookup_insert_eq. }
  split; [done|]. intros ->. apply Hsame. by rewrite ExtractedText_flatten.
Qed.

Lemma X5_structure_lost_witness :
  Sample.doc ≠ flatten Sample.doc
  ∧ fs (main Sample.env_ok (Sample.world_of Sample.doc)).2 !! output_path
    = fs (main Sample.env_ok (Sample.world_of (flatten Sample.doc))).2
        !! output_path.
Proof.
  split; [discriminate|].
  destruct (X5_structure_lost Sample.env_ok
              (Sample.world_of Sample.doc) (Sample.world_of (flatten Sample.doc))
              Sample.doc (flatten Sample.doc) eq_refl eq_refl eq_refl eq_refl)
    as [_ H].
  exact (H eq_refl).
Defined.

(** X6: under the same environment a second run gives the result of the
    first and leaves the file system as the first left it, whatever that
    result is: a fallback, an exception before the output was opened, a
    write that fails at the same call, or a complete extraction. *)
Theorem X6_rerun_same_outcome E w :
  (main E (main E w).2).1 = (main E w).1
  ∧ fs (main E (main E w).2).2 = fs (main E w).2.
Proof.
  destruct (main_cases E w)
    as [(Hi & Hp & Hm)|[(e & He & Hm)|(Hi & d & Hd & Ho & Hm)]].
  - rewrite Hm. cbn [snd fst]. by rewrite main_fallback.
  - rewrite Hm. cbn [snd fst]. by rewrite Hm.
  - rewrite Hm. cbn [snd fst]. rewrite (main_extract E _ d); [|done| |done].
    + cbn [fst snd fs]. by rewrite insert_insert_eq.
    + cbn [fs]. by rewrite lookup_insert_ne.
Qed.
